(** * call_stats: a shallow embedding of src/call_stats.py

    The decorator class [call_stats] keeps, per decorated function, a call
    counter, a bounded history of durations (a [collections.deque] with a
    [maxlen]) and a capacity field; a class-level dict [_instances] maps each
    decorated function to its decorator object.

    Modelling choices:
    - Python objects are kept in an object store [heap] (a list indexed by
      object id), so that the decorator object reachable through the
      decorated name and the one stored in [_instances] are the same object;
    - [_instances] is an insertion-ordered association list with the update
      behaviour of a Python dict (an existing key keeps its position);
    - durations are real numbers ([R]); the numpy reductions return either a
      number or [NaN] (numpy's result for an empty input);
    - capacities assigned to [n_call_stat_hist] are Python ints ([Z]); the
      interpreter is a 64-bit CPython, whose [Py_ssize_t] bounds the [maxlen]
      of a deque;
    - a run is the list of the operations in the order they complete: a
      wrapper invocation made inside the body of another decorated function
      completes, and does its bookkeeping, before the outer one;
    - the underlying callable is modelled by its result on each call, given
      by its positional and keyword arguments ([fbody]); the clock readings
      [t1] and [t2] of [__call__] are inputs of the invocation. *)

From Stdlib Require Import ZArith List String Bool Lia Sorted Permutation.
From Stdlib Require Import Reals.
Import ListNotations.
Open Scope Z_scope.

(** ** Python values, exceptions and results *)

Inductive exn : Type :=
| Exc (cls : string) (msg : string).

Inductive pyval : Type :=
| PyNone
| PyInt (z : Z)
| PyStr (s : string)
| PyObj (oid : nat).

(** The result of a Python call: a returned value or a raised exception. *)
Inductive outcome : Type :=
| Ok (v : pyval)
| Raise (e : exn).

(** The keyword arguments of a call, in the order given (distinct names). *)
Definition kwargs : Type := list (string * pyval).

(** ** numpy reductions over the history *)

Inductive npfloat : Type :=
| NF (r : R)
| NaN.

Definition rsum (xs : list R) : R := fold_left Rplus xs 0%R.

(** [np.sum]: the sum of an empty array is [0.0]. *)
Definition np_sum (xs : list R) : npfloat := NF (rsum xs).

(** [np.mean]: [nan] (with a RuntimeWarning, no exception) on an empty
    array. *)
Definition np_mean (xs : list R) : npfloat :=
  match xs with
  | [] => NaN
  | _ => NF (rsum xs / INR (List.length xs))%R
  end.

(** [np.std] with the default [ddof=0]: [nan] on an empty array. *)
Definition np_std (xs : list R) : npfloat :=
  match xs with
  | [] => NaN
  | _ =>
      let m := (rsum xs / INR (List.length xs))%R in
      NF (sqrt (rsum (map (fun x => (x - m) ^ 2)%R xs) / INR (List.length xs)))
  end.

(** ** [collections.deque] with a [maxlen] *)

Record deque : Type := mk_deque { maxlen : Z; items : list R }.

(** The range of [Py_ssize_t] on a 64-bit CPython: [-2^63 .. 2^63 - 1]. *)
Definition PY_SSIZE_T_MIN : Z := -9223372036854775808.
Definition PY_SSIZE_T_MAX : Z := 9223372036854775807.

Definition overflow_error : exn :=
  Exc "OverflowError" "Python int too large to convert to C ssize_t".

Definition maxlen_error : exn := Exc "ValueError" "maxlen must be non-negative".

(** [deque(maxlen=m)]: [m] is first converted to a [Py_ssize_t]
    ([PyLong_AsSsize_t], OverflowError outside its range), then a negative
    [maxlen] raises ValueError. *)
Definition deque_new (m : Z) : exn + deque :=
  if (m <? PY_SSIZE_T_MIN) || (PY_SSIZE_T_MAX <? m) then inl overflow_error
  else if m <? 0 then inl maxlen_error
  else inr (mk_deque m []).

(** [d.append(x)]: append on the right, then drop the leftmost item when the
    length exceeds [maxlen]. *)
Definition deque_append (x : R) (d : deque) : deque :=
  let l := items d ++ [x] in
  mk_deque (maxlen d) (if maxlen d <? Z.of_nat (List.length l) then tl l else l).

(** ** The decorator object *)

(** A decorated function: its identity (the dict key), its [__name__] and
    its behaviour on each call (positional and keyword arguments). *)
Record func : Type := mk_func {
  fid : nat;
  fname : string;
  fbody : list pyval -> kwargs -> outcome
}.

(** The instance attributes of a [call_stats] object; [__name__] is copied
    from the function by [update_wrapper]. *)
Record call_stats : Type := mk_call_stats {
  __name__ : string;
  _func : func;
  _call_count : Z;
  _n_call_stat_hist : Z;
  _call_hist : deque
}.

(** [__init__] (lines 59-65), apart from the registration. *)
Definition init (f : func) : call_stats :=
  mk_call_stats (fname f) f 0 1000 (mk_deque 1000 []).

(** Lines 71-72 of [__call__]: the bookkeeping after the underlying call
    returned. *)
Definition record_call (dt : R) (w : call_stats) : call_stats :=
  mk_call_stats (__name__ w) (_func w) (_call_count w + 1)
    (_n_call_stat_hist w) (deque_append dt (_call_hist w)).

(** The list returned by the [call_stats] property getter (lines 83-84). *)
Record stats : Type := mk_stats {
  s_name : string;
  s_count : Z;
  s_total : npfloat;
  s_mean : npfloat;
  s_std : npfloat
}.

Definition get_call_stats (w : call_stats) : stats :=
  let h := items (_call_hist w) in
  mk_stats (__name__ w) (_call_count w) (np_sum h) (np_mean h) (np_std h).

(** The [call_stats] property setter (lines 86-88). *)
Definition read_only_error : exn :=
  Exc "AttributeError" "The call_stats property is read only".

(** The [n_call_stat_hist] getter (lines 90-92). *)
Definition n_call_stat_hist (w : call_stats) : Z := _n_call_stat_hist w.

(** The [n_call_stat_hist] setter (lines 94-97): the field is assigned
    first, then a new deque is built with the new [maxlen]; when that raises,
    the field keeps the new value and the old deque stays. *)
Definition set_n_call_stat_hist (value : Z) (w : call_stats)
  : call_stats * outcome :=
  let w1 := mk_call_stats (__name__ w) (_func w) (_call_count w) value
              (_call_hist w) in
  match deque_new (n_call_stat_hist w1) with
  | inl e => (w1, Raise e)
  | inr d =>
      (mk_call_stats (__name__ w1) (_func w1) (_call_count w1)
         (_n_call_stat_hist w1) d, Ok PyNone)
  end.

(** ** The process state: objects and the class-level dict [_instances] *)

Record state : Type := mk_state {
  heap : list call_stats;
  _instances : list (nat * nat)   (* function id -> object id *)
}.

Definition state0 : state := mk_state [] [].

(** [d[k] = v] on a Python dict. *)
Fixpoint dict_set (k v : nat) (d : list (nat * nat)) : list (nat * nat) :=
  match d with
  | [] => [(k, v)]
  | (k', v') :: d' =>
      if Nat.eqb k k' then (k, v) :: d' else (k', v') :: dict_set k v d'
  end.

Fixpoint dict_get (k : nat) (d : list (nat * nat)) : option nat :=
  match d with
  | [] => None
  | (k', v') :: d' => if Nat.eqb k k' then Some v' else dict_get k d'
  end.

Fixpoint set_nth {A : Type} (n : nat) (x : A) (l : list A) : list A :=
  match l, n with
  | [], _ => []
  | _ :: l', O => x :: l'
  | y :: l', S n' => y :: set_nth n' x l'
  end.

Definition get_obj (s : state) (o : nat) : option call_stats :=
  nth_error (heap s) o.

Definition put_obj (s : state) (o : nat) (w : call_stats) : state :=
  mk_state (set_nth o w (heap s)) (_instances s).

(** The operations of the module, each as it completes. *)
Inductive op : Type :=
| Wrap (f : func) (extra : list Z) (kw : list (string * Z))
    (* [call_stats(f, *extra, **kw)] *)
| Invoke (self : nat) (args : list pyval) (kw : kwargs) (t1 t2 : R)
    (* [self( *args, **kw)], clock read [t1] before and [t2] after the call *)
| SetCallStats (self : nat) (value : pyval)
    (* [self.call_stats = value] *)
| SetNCallStatHist (self : nat) (value : Z).
    (* [self.n_call_stat_hist = value] *)

(** Argument binding of [__init__(self, func)] rejects any further
    positional or keyword argument (CPython's message text depends on the
    arguments and is not modelled). *)
Definition init_type_error : exn :=
  Exc "TypeError" "__init__() got an unexpected argument".

(** Argument binding of [__call__(self, *args, **kwargs)]: [self] is bound
    to the decorator object, so a keyword argument named [self] is a second
    value for it. *)
Definition has_self_kw (kw : kwargs) : bool :=
  existsb (fun p => String.eqb (fst p) "self") kw.

Definition self_kw_error : exn :=
  Exc "TypeError" "call_stats.__call__() got multiple values for argument 'self'".

(** An operation on an object id that was never allocated cannot be written
    in Python; the model answers it with a NameError. *)
Definition unbound_error : exn := Exc "NameError" "name is not defined".

Definition exec (s : state) (o : op) : state * outcome :=
  match o with
  | Wrap f [] [] =>
      let oid := List.length (heap s) in
      (mk_state (heap s ++ [init f]) (dict_set (fid f) oid (_instances s)),
       Ok (PyObj oid))
  | Wrap _ _ _ => (s, Raise init_type_error)
  | Invoke self args kw t1 t2 =>
      match get_obj s self with
      | None => (s, Raise unbound_error)
      | Some w =>
          if has_self_kw kw then (s, Raise self_kw_error)
          else
            match fbody (_func w) args kw with
            | Raise e => (s, Raise e)
            | Ok resp => (put_obj s self (record_call (t2 - t1)%R w), Ok resp)
            end
      end
  | SetCallStats _ _ => (s, Raise read_only_error)
  | SetNCallStatHist self value =>
      match get_obj s self with
      | None => (s, Raise unbound_error)
      | Some w =>
          let (w', r) := set_n_call_stat_hist value w in (put_obj s self w', r)
      end
  end.

(** A run: the caller may catch an exception and go on. *)
Fixpoint run (ops : list op) (s : state) : state :=
  match ops with
  | [] => s
  | o :: ops' => run ops' (fst (exec s o))
  end.

(** ** Reports *)

(** The lines printed: ["<name>() called 0 times"], the line with count,
    total, mean and std, and the truncation note
    ["NB: Some statistics are calculated using truncated call history"]. *)
Inductive line : Type :=
| ZeroCallsLine (nm : string)
| CallsLine (nm : string) (count : Z) (tot mean std : npfloat)
| TruncationNote.

(** [print_call_stats] (lines 99-107); [count is 0] holds exactly for the
    count 0 (CPython caches small integers). *)
Definition print_call_stats (w : call_stats) : line :=
  let st := get_call_stats w in
  if s_count st =? 0 then ZeroCallsLine (s_name st)
  else CallsLine (s_name st) (s_count st) (s_total st) (s_mean st) (s_std st).

(** [list.sort(key=..., reverse=True)]: Python's sort is stable, also in
    reverse mode (equal keys keep their order); modelled as an insertion
    sort into a non-increasing list. *)
Fixpoint insert_desc {A : Type} (x : A * Z) (l : list (A * Z)) : list (A * Z) :=
  match l with
  | [] => [x]
  | y :: l' => if snd y <=? snd x then x :: l else y :: insert_desc x l'
  end.

Fixpoint sort_desc {A : Type} (l : list (A * Z)) : list (A * Z) :=
  match l with
  | [] => []
  | x :: l' => insert_desc x (sort_desc l')
  end.

(** Lines 112-114: [(deco, deco.call_stats[1])] for every entry of
    [_instances], in dict order. *)
Fixpoint collect (s : state) (d : list (nat * nat)) : list (call_stats * Z) :=
  match d with
  | [] => []
  | (_, o) :: d' =>
      match get_obj s o with
      | Some w => (w, s_count (get_call_stats w)) :: collect s d'
      | None => collect s d'
      end
  end.

(** Lines 117-120: print each entry and raise the overflow flag. *)
Fixpoint print_loop (l : list (call_stats * Z)) (overflow : bool)
  : list line * bool :=
  match l with
  | [] => ([], overflow)
  | (deco, count) :: l' =>
      let overflow' := if n_call_stat_hist deco <? count then true else overflow in
      let (out, ov) := print_loop l' overflow' in
      (print_call_stats deco :: out, ov)
  end.

(** [print_all_call_stats] (lines 109-123): the lines it prints. *)
Definition print_all_call_stats (s : state) : list line :=
  let stats := sort_desc (collect s (_instances s)) in
  let (out, overflow) := print_loop stats false in
  out ++ (if overflow then [TruncationNote] else []).

(** ** Sample functions and auxiliary predicates *)

(** Binding of a call to [def f(p1, ..., pn)] (no default values, no star
    parameters): the positional arguments fill the first parameters and the
    keyword arguments the remaining ones. Too many positional arguments, a
    keyword naming no remaining parameter (unknown, or already filled), or a
    parameter left without a value make the binding fail with TypeError
    (CPython's message text is not modelled). *)
Fixpoint kw_lookup (k : string) (kw : kwargs) : option pyval :=
  match kw with
  | [] => None
  | (k', v) :: kw' => if String.eqb k k' then Some v else kw_lookup k kw'
  end.

Fixpoint bind_rest (ps : list string) (kw : kwargs) : option (list pyval) :=
  match ps with
  | [] => Some []
  | p :: ps' =>
      match kw_lookup p kw, bind_rest ps' kw with
      | Some v, Some vs => Some (v :: vs)
      | _, _ => None
      end
  end.

Definition bind_params (params : list string) (args : list pyval) (kw : kwargs)
  : option (list pyval) :=
  if Nat.ltb (List.length params) (List.length args) then None
  else
    let rest := skipn (List.length args) params in
    if forallb (fun p => existsb (String.eqb (fst p)) rest) kw
    then option_map (app args) (bind_rest rest kw)
    else None.

Definition binding_error : exn :=
  Exc "TypeError" "arguments do not match the signature".

(** [a + b] on the modelled values: ints add, strings concatenate, anything
    else (None, decorator objects, mixed operands) raises TypeError. *)
Definition py_add (a b : pyval) : outcome :=
  match a, b with
  | PyInt x, PyInt y => Ok (PyInt (x + y))
  | PyStr x, PyStr y => Ok (PyStr (x ++ y))
  | _, _ => Raise (Exc "TypeError" "unsupported operand type(s) for +")
  end.

(** The demo's [def add(a, b): return a+b] (lines 129-131). *)
Definition add_f : func :=
  mk_func 1 "add"
    (fun args kw => match bind_params ["a"%string; "b"%string] args kw with
                    | Some [a; b] => py_add a b
                    | _ => Raise binding_error
                    end).

(** [def noop( *args, **kwargs): return None]. *)
Definition noop_f : func := mk_func 2 "noop" (fun _ _ => Ok PyNone).

(** Invocations of one object with positional and keyword arguments and
    clock readings. *)
Definition invocations (o : nat) (calls : list (list pyval * kwargs * R * R))
  : list op :=
  map (fun '(a, kw, t1, t2) => Invoke o a kw t1 t2) calls.

Definition returns (r : outcome) : bool :=
  match r with Ok _ => true | Raise _ => false end.

(** An invocation of a wrapper of [body] gets through [__call__]'s argument
    binding and its underlying call returns. *)
Definition call_returns (body : list pyval -> kwargs -> outcome)
  (a : list pyval) (kw : kwargs) : bool :=
  negb (has_self_kw kw) && returns (body a kw).

(** A sample callable [def mul(a, b)] that multiplies two ints and raises
    TypeError on any other argument. *)
Definition mul_f : func :=
  mk_func 3 "mul"
    (fun args kw => match bind_params ["a"%string; "b"%string] args kw with
                    | Some [PyInt a; PyInt b] => Ok (PyInt (a * b))
                    | _ => Raise (Exc "TypeError" "mul() takes two ints")
                    end).


Definition sample_ops : list op :=
  [Wrap add_f [] []; Invoke 0 [PyInt 1; PyInt 2] [] 0%R 1%R;
   Wrap noop_f [] []; Invoke 1 [] [] 1%R 2%R; Invoke 0 [PyInt 1] [] 2%R 3%R;
   SetNCallStatHist 0 1; Invoke 0 [PyInt 3; PyInt 4] [] 3%R 4%R;
   Invoke 0 [PyInt 5] [("b"%string, PyInt 6)] 4%R 5%R; SetCallStats 1 PyNone;
   SetNCallStatHist 1 (2 ^ 64); Invoke 1 [] [] 5%R 6%R].

(** Capacity changes with non-negative values ([historyCapacity] is an
    unsigned integer in the spec). *)
Definition caps_nonneg (ops : list op) : bool :=
  forallb (fun o => match o with SetNCallStatHist _ v => 0 <=? v | _ => true end)
    ops.

Definition hist_len (w : call_stats) : Z :=
  Z.of_nat (List.length (items (_call_hist w))).

(** The deque's own invariant: a [maxlen] in the range of [Py_ssize_t] and
    not negative, a history within it and within the count. *)
Definition deq_inv (w : call_stats) : Prop :=
  0 <= maxlen (_call_hist w) <= PY_SSIZE_T_MAX /\
  hist_len w <= maxlen (_call_hist w) /\ hist_len w <= _call_count w.

(** The per-object invariant kept by every operation: the deque's invariant,
    and a capacity field equal to the deque's [maxlen] unless a failed
    assignment left it out of the range [0 .. PY_SSIZE_T_MAX]. *)
Definition obj_inv (w : call_stats) : Prop :=
  deq_inv w /\
  (_n_call_stat_hist w = maxlen (_call_hist w) \/
   PY_SSIZE_T_MAX < _n_call_stat_hist w \/ _n_call_stat_hist w < 0).

(** The function with identity [k] has an entry in [_instances], bound to an
    existing decorator object of that function. *)
Definition key_registered (s : state) (k : nat) : Prop :=
  exists o w, dict_get k (_instances s) = Some o /\ get_obj s o = Some w /\
    fid (_func w) = k.


(** The last [n] elements of a list. *)
Definition lastn {A : Type} (n : nat) (l : list A) : list A :=
  skipn (List.length l - n) l.

(** The durations [t2 - t1] recorded by a sequence of invocations of an
    object with underlying behaviour [body]: only the calls that return. *)
Definition ok_durations (body : list pyval -> kwargs -> outcome)
  (calls : list (list pyval * kwargs * R * R)) : list R :=
  flat_map (fun '(a, kw, t1, t2) =>
              if call_returns body a kw then [(t2 - t1)%R] else [])
    calls.

(** Well-formed registry: the keys of [_instances] are distinct, and each is
    bound to an existing object wrapping the function with that key. *)
Definition reg_wf (s : state) : Prop :=
  NoDup (map fst (_instances s)) /\
  forall k o, In (k, o) (_instances s) ->
    exists w, get_obj s o = Some w /\ fid (_func w) = k.

(** The demo's [fib] (lines 133-138): naive recursion through the decorated
    name. *)
Fixpoint fib_nat (n : nat) : Z :=
  match n with
  | O => 0
  | S m => match m with O => 1 | S k => fib_nat m + fib_nat k end
  end.

(** The result of [fib(n)]: [n] itself when [n <= 1], else the sum of the
    two recursive results; a non-int [n] fails at [n <= 1]. *)
Definition fib_f : func :=
  mk_func 4 "fib"
    (fun args kw => match bind_params ["n"%string] args kw with
                    | Some [PyInt n] => if n <=? 1 then Ok (PyInt n)
                                        else Ok (PyInt (fib_nat (Z.to_nat n)))
                    | Some _ => Raise (Exc "TypeError" "'<=' not supported")
                    | None => Raise binding_error
                    end).

(** The invocations of the decorated [fib] (object [o]) made by the call
    [fib(n)], in the order they complete: [fib(n-1)], then [fib(n-2)], then
    the outer call; every clock reading is [t1] before and [t2] after. *)
Fixpoint fib_calls (o : nat) (n : nat) (t1 t2 : R) : list op :=
  match n with
  | O => [Invoke o [PyInt 0] [] t1 t2]
  | S m =>
      match m with
      | O => [Invoke o [PyInt 1] [] t1 t2]
      | S k => fib_calls o m t1 t2 ++ fib_calls o k t1 t2
               ++ [Invoke o [PyInt (Z.of_nat n)] [] t1 t2]
      end
  end.

(** The number of calls of naive [fib(n)]. *)
Fixpoint ncalls (n : nat) : nat :=
  match n with
  | O => 1
  | S m => match m with O => 1 | S k => ncalls m + ncalls k + 1 end
  end.

(** ** The object store *)

Lemma set_nth_length {A : Type} (n : nat) (x : A) (l : list A) :
  List.length (set_nth n x l) = List.length l.
Proof.
  revert n; induction l as [|y l IH]; intros [|n]; simpl; auto.
Qed.

Lemma nth_error_set_nth_eq {A : Type} (n : nat) (x : A) (l : list A) :
  (n < List.length l)%nat -> nth_error (set_nth n x l) n = Some x.
Proof.
  revert n; induction l as [|y l IH]; intros [|n] H; simpl in *; try lia; auto.
  apply IH; lia.
Qed.

Lemma nth_error_set_nth_neq {A : Type} (n m : nat) (x : A) (l : list A) :
  n <> m -> nth_error (set_nth n x l) m = nth_error l m.
Proof.
  revert n m; induction l as [|y l IH]; intros [|n] [|m] H; simpl; auto.
  - congruence.
Qed.

Lemma get_put_eq (s : state) (o : nat) (w w' : call_stats) :
  get_obj s o = Some w -> get_obj (put_obj s o w') o = Some w'.
Proof.
  unfold get_obj, put_obj; simpl; intros H.
  apply nth_error_set_nth_eq.
  apply nth_error_Some; congruence.
Qed.

Lemma get_put_neq (s : state) (o o' : nat) (w : call_stats) :
  o <> o' -> get_obj (put_obj s o w) o' = get_obj s o'.
Proof.
  unfold get_obj, put_obj; simpl; apply nth_error_set_nth_neq.
Qed.

Lemma Forall_get (P : call_stats -> Prop) (s : state) (o : nat) (w : call_stats) :
  Forall P (heap s) -> get_obj s o = Some w -> P w.
Proof.
  intros H E; eapply Forall_forall; [exact H | eapply nth_error_In; exact E].
Qed.

(** ** The capacity setter and the invocation step *)

Lemma deque_new_cases (m : Z) :
  (0 <= m <= PY_SSIZE_T_MAX /\ deque_new m = inr (mk_deque m [])) \/
  (PY_SSIZE_T_MIN <= m < 0 /\ deque_new m = inl maxlen_error) \/
  ((m < PY_SSIZE_T_MIN \/ PY_SSIZE_T_MAX < m) /\ deque_new m = inl overflow_error).
Proof.
  unfold deque_new.
  destruct (Z.ltb_spec m PY_SSIZE_T_MIN), (Z.ltb_spec PY_SSIZE_T_MAX m),
    (Z.ltb_spec m 0); simpl; unfold PY_SSIZE_T_MIN, PY_SSIZE_T_MAX in *;
    first [ left; split; [lia | reflexivity]
          | right; left; split; [lia | reflexivity]
          | right; right; split; [lia | reflexivity] ].
Qed.

Lemma deque_new_ok (m : Z) :
  0 <= m <= PY_SSIZE_T_MAX -> deque_new m = inr (mk_deque m []).
Proof.
  intros H; destruct (deque_new_cases m) as [[_ E]|[[Hv _]|[Hv _]]]; [exact E| |];
    unfold PY_SSIZE_T_MIN, PY_SSIZE_T_MAX in *; lia.
Qed.

Lemma deque_new_value_error (m : Z) :
  PY_SSIZE_T_MIN <= m < 0 -> deque_new m = inl maxlen_error.
Proof.
  intros H; destruct (deque_new_cases m) as [[Hv _]|[[_ E]|[Hv _]]]; [| exact E |];
    unfold PY_SSIZE_T_MIN, PY_SSIZE_T_MAX in *; lia.
Qed.

Lemma deque_new_overflow (m : Z) :
  m < PY_SSIZE_T_MIN \/ PY_SSIZE_T_MAX < m -> deque_new m = inl overflow_error.
Proof.
  intros H; destruct (deque_new_cases m) as [[Hv _]|[[Hv _]|[_ E]]]; [| | exact E];
    unfold PY_SSIZE_T_MIN, PY_SSIZE_T_MAX in *; lia.
Qed.

Lemma set_hist_unfold (v : Z) (w : call_stats) :
  set_n_call_stat_hist v w
  = match deque_new v with
    | inl e => (mk_call_stats (__name__ w) (_func w) (_call_count w) v (_call_hist w),
                Raise e)
    | inr d => (mk_call_stats (__name__ w) (_func w) (_call_count w) v d, Ok PyNone)
    end.
Proof. reflexivity. Qed.

Lemma set_hist_fst (v : Z) (w : call_stats) :
  fst (set_n_call_stat_hist v w)
  = mk_call_stats (__name__ w) (_func w) (_call_count w) v
      (match deque_new v with inl _ => _call_hist w | inr d => d end).
Proof. rewrite set_hist_unfold; destruct (deque_new v); reflexivity. Qed.

Lemma set_hist_snd (v : Z) (w : call_stats) :
  snd (set_n_call_stat_hist v w)
  = match deque_new v with inl e => Raise e | inr _ => Ok PyNone end.
Proof. rewrite set_hist_unfold; destruct (deque_new v); reflexivity. Qed.

Lemma exec_set_hist (s : state) (o : nat) (w : call_stats) (m : Z) :
  get_obj s o = Some w ->
  exec s (SetNCallStatHist o m)
  = (put_obj s o (fst (set_n_call_stat_hist m w)), snd (set_n_call_stat_hist m w)).
Proof.
  intros H; cbn [exec]; rewrite H.
  destruct (set_n_call_stat_hist m w); reflexivity.
Qed.

Lemma exec_invoke (s : state) (o : nat) (w : call_stats) (a : list pyval)
  (kw : kwargs) (t1 t2 : R) :
  get_obj s o = Some w ->
  exec s (Invoke o a kw t1 t2)
  = if has_self_kw kw then (s, Raise self_kw_error)
    else match fbody (_func w) a kw with
         | Raise e => (s, Raise e)
         | Ok resp => (put_obj s o (record_call (t2 - t1)%R w), Ok resp)
         end.
Proof. intros H; cbn [exec]; rewrite H; reflexivity. Qed.

Lemma exec_invoke_fst (s : state) (o : nat) (w : call_stats) (a : list pyval)
  (kw : kwargs) (t1 t2 : R) :
  get_obj s o = Some w ->
  fst (exec s (Invoke o a kw t1 t2))
  = if call_returns (fbody (_func w)) a kw
    then put_obj s o (record_call (t2 - t1)%R w) else s.
Proof.
  intros H; rewrite (exec_invoke s o w a kw t1 t2 H); unfold call_returns.
  destruct (has_self_kw kw); [reflexivity|].
  destruct (fbody (_func w) a kw); reflexivity.
Qed.

Lemma run_invocations_cons (o : nat) (a : list pyval) (kw : kwargs) (t1 t2 : R)
  (calls : list (list pyval * kwargs * R * R)) (s : state) :
  run (invocations o ((a, kw, t1, t2) :: calls)) s
  = run (invocations o calls) (fst (exec s (Invoke o a kw t1 t2))).
Proof. reflexivity. Qed.

(** Only a wrap touches [_instances]. *)
Lemma exec_instances (s : state) (o : op) :
  (forall f extra kw, o <> Wrap f extra kw) -> _instances (fst (exec s o)) = _instances s.
Proof.
  intros Ho; destruct o as [f extra kw | self args kw t1 t2 | self v | self v].
  - exfalso; exact (Ho f extra kw eq_refl).
  - destruct (get_obj s self) as [w|] eqn:E.
    + rewrite (exec_invoke_fst s self w args kw t1 t2 E).
      destruct (call_returns _ _ _); reflexivity.
    + cbn [exec]; rewrite E; reflexivity.
  - reflexivity.
  - destruct (get_obj s self) as [w|] eqn:E.
    + rewrite (exec_set_hist s self w v E); reflexivity.
    + cbn [exec]; rewrite E; reflexivity.
Qed.

(** A wrapped object never changes its underlying function. *)
Lemma exec_keeps_func (s : state) (o : op) (n : nat) (w : call_stats) :
  get_obj s n = Some w ->
  exists w', get_obj (fst (exec s o)) n = Some w' /\ _func w' = _func w.
Proof.
  intros H.
  destruct o as [f extra kw | self args kw t1 t2 | self v | self v].
  - simpl; destruct extra, kw; simpl; try (exists w; split; auto; fail).
    exists w; split; auto.
    unfold get_obj in *; simpl; rewrite nth_error_app1; auto.
    apply nth_error_Some; congruence.
  - destruct (get_obj s self) as [c|] eqn:E.
    + rewrite (exec_invoke_fst s self c args kw t1 t2 E).
      destruct (call_returns _ _ _); [|exists w; auto].
      destruct (Nat.eq_dec self n) as [->|Hne].
      * rewrite E in H; injection H as <-.
        exists (record_call (t2 - t1)%R c); split; [eapply get_put_eq; eauto | reflexivity].
      * exists w; split; auto; rewrite get_put_neq; auto.
    + cbn [exec]; rewrite E; exists w; auto.
  - exists w; auto.
  - destruct (get_obj s self) as [c|] eqn:E.
    + rewrite (exec_set_hist s self c v E); cbn [fst].
      destruct (Nat.eq_dec self n) as [->|Hne].
      * rewrite E in H; injection H as <-.
        eexists; split; [eapply get_put_eq; eauto | rewrite set_hist_fst; reflexivity].
      * exists w; split; auto; rewrite get_put_neq; auto.
    + cbn [exec]; rewrite E; exists w; auto.
Qed.


Lemma get_wrap_new (s : state) (f : func) :
  get_obj (fst (exec s (Wrap f [] []))) (List.length (heap s)) = Some (init f).
Proof.
  unfold get_obj; simpl.
  rewrite nth_error_app2 by lia; rewrite Nat.sub_diag; reflexivity.
Qed.

Lemma get_wrap_old (s : state) (f : func) (o : nat) :
  (o < List.length (heap s))%nat ->
  get_obj (fst (exec s (Wrap f [] []))) o = get_obj s o.
Proof.
  intros H; unfold get_obj; simpl; apply nth_error_app1; exact H.
Qed.



(** ** The history invariants *)

Lemma deque_append_length (x : R) (d : deque) :
  0 <= maxlen d -> Z.of_nat (List.length (items d)) <= maxlen d ->
  Z.of_nat (List.length (items (deque_append x d))) <= maxlen d /\
  Z.of_nat (List.length (items (deque_append x d)))
  <= Z.of_nat (List.length (items d)) + 1.
Proof.
  intros H0 H1; unfold deque_append; simpl.
  destruct (maxlen d <? Z.of_nat (List.length (items d ++ [x]))) eqn:E.
  - destruct (items d ++ [x]) as [|y l] eqn:El.
    + destruct (items d); discriminate.
    + simpl in *.
      assert (Hl : List.length (items d ++ [x]) = S (List.length l)) by (rewrite El; reflexivity).
      rewrite length_app in Hl; simpl in Hl; lia.
  - apply Z.ltb_ge in E; rewrite length_app in *; simpl in *; lia.
Qed.

Lemma obj_inv_init (f : func) : obj_inv (init f).
Proof. unfold obj_inv, deq_inv, hist_len, PY_SSIZE_T_MAX; simpl; lia. Qed.

Lemma obj_inv_record_call (dt : R) (w : call_stats) :
  obj_inv w -> obj_inv (record_call dt w).
Proof.
  unfold obj_inv, deq_inv, hist_len, record_call; simpl.
  intros (((H1 & H2) & H3 & H4) & H5).
  destruct (deque_append_length dt (_call_hist w) H1 H3).
  simpl in *; lia.
Qed.

Lemma obj_inv_set_hist (v : Z) (w : call_stats) :
  obj_inv w -> obj_inv (fst (set_n_call_stat_hist v w)).
Proof.
  rewrite set_hist_fst.
  destruct (deque_new_cases v) as [[Hv E]|[[Hv E]|[Hv E]]]; rewrite E;
    unfold obj_inv, deq_inv, hist_len; simpl;
    intros (((H1 & H2) & H3 & H4) & H5);
    unfold PY_SSIZE_T_MIN, PY_SSIZE_T_MAX in *; lia.
Qed.

Lemma Forall_set_nth {A : Type} (P : A -> Prop) (n : nat) (x : A) (l : list A) :
  Forall P l -> P x -> Forall P (set_nth n x l).
Proof.
  intros Hl Hx; revert n; induction Hl as [|y l Hy Hl IH]; intros [|n]; simpl;
    constructor; auto.
Qed.

Lemma exec_obj_inv (s : state) (o : op) :
  Forall obj_inv (heap s) -> Forall obj_inv (heap (fst (exec s o))).
Proof.
  intros Hs.
  destruct o as [f extra kw | self args kw t1 t2 | self v | self v].
  - simpl; destruct extra, kw; simpl; try exact Hs.
    apply Forall_app; split; auto; constructor; [apply obj_inv_init | constructor].
  - destruct (get_obj s self) as [w|] eqn:E.
    + rewrite (exec_invoke_fst s self w args kw t1 t2 E).
      destruct (call_returns _ _ _); [|exact Hs].
      unfold put_obj; cbn [heap]; apply Forall_set_nth; [exact Hs|].
      apply obj_inv_record_call; exact (Forall_get _ s self w Hs E).
    + cbn [exec]; rewrite E; exact Hs.
  - exact Hs.
  - destruct (get_obj s self) as [w|] eqn:E.
    + rewrite (exec_set_hist s self w v E).
      unfold put_obj; cbn [heap fst]; apply Forall_set_nth; [exact Hs|].
      apply obj_inv_set_hist; exact (Forall_get _ s self w Hs E).
    + cbn [exec]; rewrite E; exact Hs.
Qed.

Lemma run_obj_inv (ops : list op) (s : state) :
  Forall obj_inv (heap s) -> Forall obj_inv (heap (run ops s)).
Proof.
  revert s; induction ops as [|o ops IH]; intros s Hs; simpl; auto.
  apply IH, exec_obj_inv, Hs.
Qed.

Lemma exec_fields_nonneg (s : state) (o : op) :
  caps_nonneg [o] = true ->
  Forall (fun w => 0 <= n_call_stat_hist w) (heap s) ->
  Forall (fun w => 0 <= n_call_stat_hist w) (heap (fst (exec s o))).
Proof.
  intros Hc Hs.
  destruct o as [f extra kw | self args kw t1 t2 | self v | self v].
  - simpl; destruct extra, kw; simpl; try exact Hs.
    apply Forall_app; split; auto.
    constructor; [unfold n_call_stat_hist; simpl; lia | constructor].
  - destruct (get_obj s self) as [w|] eqn:E.
    + rewrite (exec_invoke_fst s self w args kw t1 t2 E).
      destruct (call_returns _ _ _); [|exact Hs].
      unfold put_obj; cbn [heap]; apply Forall_set_nth; [exact Hs|].
      exact (Forall_get _ s self w Hs E).
    + cbn [exec]; rewrite E; exact Hs.
  - exact Hs.
  - destruct (get_obj s self) as [w|] eqn:E.
    + rewrite (exec_set_hist s self w v E).
      unfold put_obj; cbn [heap fst]; apply Forall_set_nth; [exact Hs|].
      rewrite set_hist_fst; unfold n_call_stat_hist; simpl.
      simpl in Hc; rewrite andb_true_r in Hc; apply Z.leb_le in Hc; exact Hc.
    + cbn [exec]; rewrite E; exact Hs.
Qed.

Lemma run_fields_nonneg (ops : list op) (s : state) :
  caps_nonneg ops = true ->
  Forall (fun w => 0 <= n_call_stat_hist w) (heap s) ->
  Forall (fun w => 0 <= n_call_stat_hist w) (heap (run ops s)).
Proof.
  revert s; induction ops as [|o ops IH]; intros s Hc Hs; simpl in *; auto.
  apply andb_true_iff in Hc as [Ho Hc].
  apply IH; auto.
  apply exec_fields_nonneg; auto; simpl; rewrite Ho; reflexivity.
Qed.

(** Invocations keep the deque's [maxlen] and the history within it. *)
Lemma invocations_bounded (s : state) (o : nat) (w : call_stats)
  (calls : list (list pyval * kwargs * R * R)) :
  get_obj s o = Some w -> 0 <= maxlen (_call_hist w) -> hist_len w <= maxlen (_call_hist w) ->
  exists w', get_obj (run (invocations o calls) s) o = Some w' /\
    maxlen (_call_hist w') = maxlen (_call_hist w) /\
    hist_len w' <= maxlen (_call_hist w) /\ _func w' = _func w.
Proof.
  revert s w; induction calls as [|[[[a kw] t1] t2] calls IH]; intros s w H H0 H1.
  - simpl; exists w; auto.
  - rewrite run_invocations_cons, (exec_invoke_fst s o w a kw t1 t2 H).
    destruct (call_returns (fbody (_func w)) a kw).
    + destruct (IH (put_obj s o (record_call (t2 - t1)%R w)) (record_call (t2 - t1)%R w))
        as (w' & Hw' & Hm & Hl & Hf).
      * eapply get_put_eq; eauto.
      * exact H0.
      * unfold hist_len, record_call; simpl; apply deque_append_length; auto.
      * exists w'; simpl in *; auto.
    + apply IH; auto.
Qed.

(** ** The history as the last durations *)

Lemma lastn_lastn_app {A : Type} (m : nat) (a b : list A) :
  lastn m (lastn m a ++ b) = lastn m (a ++ b).
Proof.
  unfold lastn.
  destruct (Nat.le_gt_cases (List.length a) m) as [Hle|Hgt].
  - replace (List.length a - m)%nat with 0%nat by lia; rewrite skipn_0; reflexivity.
  - rewrite !length_app, length_skipn, !skipn_app, skipn_skipn, length_skipn.
    f_equal; [f_equal; lia | f_equal; lia].
Qed.

Lemma lastn_all {A : Type} (m : nat) (l : list A) :
  (List.length l <= m)%nat -> lastn m l = l.
Proof.
  intros H; unfold lastn; replace (List.length l - m)%nat with 0%nat by lia.
  apply skipn_0.
Qed.

Lemma deque_append_lastn (x : R) (d : deque) :
  0 <= maxlen d -> Z.of_nat (List.length (items d)) <= maxlen d ->
  items (deque_append x d) = lastn (Z.to_nat (maxlen d)) (items d ++ [x]).
Proof.
  intros H0 H1; unfold deque_append, lastn; simpl.
  destruct (maxlen d <? Z.of_nat (List.length (items d ++ [x]))) eqn:E;
    rewrite length_app in *; simpl in *.
  - apply Z.ltb_lt in E.
    replace (List.length (items d) + 1 - Z.to_nat (maxlen d))%nat with 1%nat by lia.
    destruct (items d ++ [x]); reflexivity.
  - apply Z.ltb_ge in E.
    replace (List.length (items d) + 1 - Z.to_nat (maxlen d))%nat with 0%nat by lia.
    reflexivity.
Qed.

Lemma invocations_history (s : state) (o : nat) (w : call_stats)
  (calls : list (list pyval * kwargs * R * R)) :
  get_obj s o = Some w -> 0 <= maxlen (_call_hist w) ->
  hist_len w <= maxlen (_call_hist w) ->
  exists w', get_obj (run (invocations o calls) s) o = Some w' /\
    maxlen (_call_hist w') = maxlen (_call_hist w) /\
    items (_call_hist w')
    = lastn (Z.to_nat (maxlen (_call_hist w)))
        (items (_call_hist w) ++ ok_durations (fbody (_func w)) calls) /\
    _call_count w'
    = _call_count w + Z.of_nat (List.length (ok_durations (fbody (_func w)) calls)) /\
    __name__ w' = __name__ w.
Proof.
  revert s w; induction calls as [|[[[a kw] t1] t2] calls IH]; intros s w H H0 H1.
  - simpl; exists w; rewrite app_nil_r, lastn_all by (unfold hist_len in H1; lia).
    repeat split; auto; lia.
  - rewrite run_invocations_cons, (exec_invoke_fst s o w a kw t1 t2 H).
    change (ok_durations (fbody (_func w)) ((a, kw, t1, t2) :: calls))
      with ((if call_returns (fbody (_func w)) a kw then [(t2 - t1)%R] else [])
            ++ ok_durations (fbody (_func w)) calls).
    destruct (call_returns (fbody (_func w)) a kw).
    + destruct (deque_append_length (t2 - t1)%R (_call_hist w) H0 H1) as [L1 L2].
      destruct (IH (put_obj s o (record_call (t2 - t1)%R w)) (record_call (t2 - t1)%R w))
        as (w' & Hw' & Hm & Hi & Hc & Hn).
      * eapply get_put_eq; eauto.
      * exact H0.
      * exact L1.
      * assert (Ea : items (_call_hist (record_call (t2 - t1)%R w))
                     = lastn (Z.to_nat (maxlen (_call_hist w)))
                         (items (_call_hist w) ++ [(t2 - t1)%R]))
          by (apply deque_append_lastn; auto).
        change (maxlen (_call_hist (record_call (t2 - t1)%R w)))
          with (maxlen (_call_hist w)) in *.
        change (_func (record_call (t2 - t1)%R w)) with (_func w) in *.
        change (_call_count (record_call (t2 - t1)%R w)) with (_call_count w + 1) in *.
        change (__name__ (record_call (t2 - t1)%R w)) with (__name__ w) in *.
        rewrite Ea, lastn_lastn_app, <- app_assoc in Hi.
        exists w'; repeat split; auto.
        rewrite Hc; simpl; lia.
    + apply IH; auto.
Qed.

(** ** Registry keys and frames *)

Lemma map_fst_dict_set (k v : nat) (d : list (nat * nat)) :
  map fst (dict_set k v d)
  = if existsb (Nat.eqb k) (map fst d) then map fst d else map fst d ++ [k].
Proof.
  induction d as [|[k' v'] d IH]; simpl; auto.
  destruct (Nat.eqb k k') eqn:E; simpl.
  - apply Nat.eqb_eq in E; subst; reflexivity.
  - rewrite IH; destruct (existsb _ _); reflexivity.
Qed.

Lemma in_dict_set (k v k' v' : nat) (d : list (nat * nat)) :
  In (k', v') (dict_set k v d) -> (k' = k /\ v' = v) \/ In (k', v') d.
Proof.
  induction d as [|[k0 v0] d IH]; simpl.
  - intros [H|[]]; injection H; auto.
  - destruct (Nat.eqb k k0) eqn:E; simpl.
    + intros [H|H]; [injection H; auto | auto].
    + intros [H|H]; [auto | destruct (IH H); auto].
Qed.

Lemma NoDup_app_single (l : list nat) (k : nat) :
  NoDup l -> existsb (Nat.eqb k) l = false -> NoDup (l ++ [k]).
Proof.
  intros H1 H2; apply NoDup_app; auto.
  - repeat constructor; auto.
  - intros x Hx Hk; destruct Hk as [Hk|[]]; subst k.
    assert (existsb (Nat.eqb x) l = true) by (apply existsb_exists; exists x;
      rewrite Nat.eqb_refl; auto).
    congruence.
Qed.

Lemma exec_reg_wf (s : state) (op0 : op) : reg_wf s -> reg_wf (fst (exec s op0)).
Proof.
  intros [Hn Hin].
  destruct op0 as [f extra kw | self args kw t1 t2 | self v | self v].
  - destruct extra, kw; try exact (conj Hn Hin).
    split; simpl.
    + rewrite map_fst_dict_set.
      destruct (existsb _ _) eqn:E; auto; apply NoDup_app_single; auto.
    + intros k o H; apply in_dict_set in H as [[-> ->]|H].
      * exists (init f); split; [apply get_wrap_new | reflexivity].
      * destruct (Hin k o H) as (w & Hw & Hk); exists w; split; auto.
        transitivity (get_obj s o); [apply get_wrap_old | exact Hw].
        apply nth_error_Some; unfold get_obj in Hw; congruence.
  - assert (Hi : _instances (fst (exec s (Invoke self args kw t1 t2))) = _instances s)
      by (apply exec_instances; intros; discriminate).
    split; [rewrite Hi; exact Hn|].
    intros k o H; rewrite Hi in H; destruct (Hin k o H) as (w & Hw & Hk).
    destruct (exec_keeps_func s (Invoke self args kw t1 t2) o w Hw) as (w' & H1 & H2).
    exists w'; split; auto; congruence.
  - exact (conj Hn Hin).
  - assert (Hi : _instances (fst (exec s (SetNCallStatHist self v))) = _instances s)
      by (apply exec_instances; intros; discriminate).
    split; [rewrite Hi; exact Hn|].
    intros k o H; rewrite Hi in H; destruct (Hin k o H) as (w & Hw & Hk).
    destruct (exec_keeps_func s (SetNCallStatHist self v) o w Hw) as (w' & H1 & H2).
    exists w'; split; auto; congruence.
Qed.

Lemma run_reg_wf (ops : list op) (s : state) : reg_wf s -> reg_wf (run ops s).
Proof.
  revert s; induction ops as [|o ops IH]; intros s H; simpl; auto.
  apply IH, exec_reg_wf, H.
Qed.

Lemma reg_wf_state0 : reg_wf state0.
Proof. split; [constructor | intros k o []]. Qed.

(** ** The [fib] demo *)

Lemma run_app (a b : list op) (s : state) : run (a ++ b) s = run b (run a s).
Proof. revert s; induction a as [|o a IH]; intros s; simpl; auto. Qed.

Lemma run_single (o : op) (s : state) : run [o] s = fst (exec s o).
Proof. reflexivity. Qed.

Lemma invoke_fib_step (s : state) (o : nat) (w : call_stats) (z : Z) (t1 t2 : R) :
  get_obj s o = Some w -> _func w = fib_f ->
  get_obj (fst (exec s (Invoke o [PyInt z] [] t1 t2))) o
  = Some (record_call (t2 - t1)%R w).
Proof.
  intros H Hf; rewrite (exec_invoke_fst s o w _ _ t1 t2 H), Hf.
  unfold call_returns; simpl.
  destruct (z <=? 1); simpl; eapply get_put_eq; eauto.
Qed.

Lemma fib_calls_count (o n : nat) (t1 t2 : R) :
  forall s w, get_obj s o = Some w -> _func w = fib_f ->
  exists w', get_obj (run (fib_calls o n t1 t2) s) o = Some w' /\
    _func w' = fib_f /\ _call_count w' = _call_count w + Z.of_nat (ncalls n).
Proof.
  induction n as [n IH] using lt_wf_ind; intros s w H Hf.
  destruct n as [|[|k]].
  - exists (record_call (t2 - t1)%R w); simpl fib_calls; rewrite run_single.
    rewrite (invoke_fib_step s o w) by auto; simpl; repeat split; auto; lia.
  - exists (record_call (t2 - t1)%R w); simpl fib_calls; rewrite run_single.
    rewrite (invoke_fib_step s o w) by auto; simpl; repeat split; auto; lia.
  - change (fib_calls o (S (S k)) t1 t2)
      with (fib_calls o (S k) t1 t2 ++ fib_calls o k t1 t2
            ++ [Invoke o [PyInt (Z.of_nat (S (S k)))] [] t1 t2]).
    rewrite !run_app.
    destruct (IH (S k) ltac:(lia) s w H Hf) as (w1 & H1 & F1 & C1).
    destruct (IH k ltac:(lia) _ w1 H1 F1) as (w2 & H2 & F2 & C2).
    exists (record_call (t2 - t1)%R w2); rewrite run_single.
    rewrite (invoke_fib_step _ o w2) by auto; repeat split; auto.
    replace (ncalls (S (S k))) with (ncalls (S k) + ncalls k + 1)%nat by reflexivity.
    cbn [record_call _call_count]; rewrite C2, C1; lia.
Qed.

(** ** The sort of [print_all_call_stats] *)

Section SortDesc.
Context {A : Type}.








End SortDesc.

(** ** The print loop *)








(** ** The registry *)

Lemma dict_get_set_eq (k v : nat) (d : list (nat * nat)) :
  dict_get k (dict_set k v d) = Some v.
Proof.
  induction d as [|[k' v'] d IH]; simpl; rewrite ?Nat.eqb_refl; auto.
  destruct (Nat.eqb k k') eqn:E; simpl; rewrite ?Nat.eqb_refl; auto.
  rewrite E; exact IH.
Qed.

Lemma dict_get_set_neq (k k' v : nat) (d : list (nat * nat)) :
  k <> k' -> dict_get k' (dict_set k v d) = dict_get k' d.
Proof.
  intros Hne; induction d as [|[k'' v''] d IH]; simpl.
  - destruct (Nat.eqb k' k) eqn:E; auto; apply Nat.eqb_eq in E; congruence.
  - destruct (Nat.eqb k k'') eqn:E; simpl.
    + apply Nat.eqb_eq in E; subst k''.
      destruct (Nat.eqb k' k) eqn:E'; auto; apply Nat.eqb_eq in E'; congruence.
    + rewrite IH; reflexivity.
Qed.

Lemma exec_key_registered (s : state) (op0 : op) (k : nat) :
  key_registered s k -> key_registered (fst (exec s op0)) k.
Proof.
  intros (o & w & Hd & Hw & Hk).
  destruct op0 as [f extra kw | self args kw t1 t2 | self v | self v].
  - destruct extra, kw; simpl; try (exists o, w; repeat split; auto; fail).
    destruct (Nat.eq_dec (fid f) k) as [Heq|Hne].
    + subst k; rewrite <- Heq.
      exists (List.length (heap s)), (init f); split; [simpl; apply dict_get_set_eq|].
      split; [apply get_wrap_new | reflexivity].
    + exists o, w; split; [simpl; rewrite dict_get_set_neq; auto|].
      split; auto.
      unfold get_obj in *; simpl; rewrite nth_error_app1; auto.
      apply nth_error_Some; congruence.
  - destruct (exec_keeps_func s (Invoke self args kw t1 t2) o w Hw) as (w' & H1 & H2).
    exists o, w'; split; [|split; [exact H1 | congruence]].
    rewrite exec_instances by (intros; discriminate); exact Hd.
  - exists o, w; auto.
  - destruct (exec_keeps_func s (SetNCallStatHist self v) o w Hw) as (w' & H1 & H2).
    exists o, w'; split; [|split; [exact H1 | congruence]].
    rewrite exec_instances by (intros; discriminate); exact Hd.
Qed.

(** ** Claims *)









(** C4 (as stated, refuted): assigning to [call_stats] raises
    AttributeError, not an ImmutablePropertyError. *)
Lemma C4_not_immutable_property_error :
  ~ exists msg,
      snd (exec (fst (exec state0 (Wrap add_f [] []))) (SetCallStats 0 (PyInt 3)))
      = Raise (Exc "ImmutablePropertyError" msg).
Proof.
  intros [msg H]; simpl in H; injection H; intros; discriminate.
Qed.

(** C4 (amended): in every state, assigning to the [call_stats] property
    raises AttributeError("The call_stats property is read only") and
    changes nothing. *)
Theorem set_call_stats_raises (s : state) (self : nat) (value : pyval) :
  exec s (SetCallStats self value)
  = (s, Raise (Exc "AttributeError" "The call_stats property is read only")).
Proof.
  reflexivity.
Qed.

(** C5: from the initial state, after any sequence of wraps, invocations,
    assignments to [call_stats] and capacity changes (with non-negative
    capacities, the spec's unsigned integers), every decorator object has
    [len(history) <= historyCapacity] and [callCount >= len(history)]. A
    capacity of [2^63] or more raises OverflowError and keeps the old
    history; the field then holds the larger value, so the bound still
    holds. *)
Theorem history_invariants (ops : list op) :
  caps_nonneg ops = true ->
  Forall (fun w => hist_len w <= n_call_stat_hist w /\ hist_len w <= _call_count w)
    (heap (run ops state0)).
Proof.
  intros Hc.
  pose proof (run_obj_inv ops state0 (Forall_nil _)) as H1.
  pose proof (run_fields_nonneg ops state0 Hc (Forall_nil _)) as H2.
  apply Forall_forall; intros w Hw.
  pose proof (proj1 (Forall_forall _ _) H1 w Hw) as Hi.
  pose proof (proj1 (Forall_forall _ _) H2 w Hw) as Hn.
  unfold obj_inv, deq_inv in Hi; destruct Hi as (((A1 & A2) & A3 & A4) & A5).
  unfold n_call_stat_hist in *; unfold PY_SSIZE_T_MAX in *; lia.
Qed.

Lemma history_invariants_witness :
  caps_nonneg sample_ops = true /\
  Forall (fun w => hist_len w <= n_call_stat_hist w /\ hist_len w <= _call_count w)
    (heap (run sample_ops state0)).
Proof.
  split; [reflexivity | apply history_invariants; reflexivity].
Defined.

(** C6 (as stated, refuted): setting the capacity of a wrapped callable
    with one recorded call to [2^63] raises OverflowError (the deque's
    [maxlen] must fit a [Py_ssize_t]) and the history keeps its entry. *)
Lemma C6_huge_capacity_keeps_history :
  let s := run [Wrap add_f [] []; Invoke 0 [PyInt 1; PyInt 2] [] 0%R 1%R] state0 in
  snd (exec s (SetNCallStatHist 0 (2 ^ 63))) = Raise overflow_error /\
  option_map (fun w => (n_call_stat_hist w, hist_len w))
    (get_obj (fst (exec s (SetNCallStatHist 0 (2 ^ 63)))) 0) = Some (2 ^ 63, 1).
Proof.
  split; reflexivity.
Qed.

(** C6 (amended): setting the capacity of a wrapped callable to
    [0 <= m <= 2^63 - 1] returns normally, empties the history right away,
    stores [m] as the capacity, leaves [callCount] unchanged, and any later
    invocations keep the history within [m] entries. For [m >= 2^63] the
    assignment raises OverflowError after the field has been set to [m]; the
    old history stays and [callCount] is unchanged. *)
Theorem set_capacity_resets (s : state) (o : nat) (w : call_stats) (m : Z)
  (calls : list (list pyval * kwargs * R * R)) :
  get_obj s o = Some w -> 0 <= m ->
  (m <= PY_SSIZE_T_MAX ->
   snd (exec s (SetNCallStatHist o m)) = Ok PyNone /\
   (exists w1, get_obj (fst (exec s (SetNCallStatHist o m))) o = Some w1 /\
      items (_call_hist w1) = [] /\ n_call_stat_hist w1 = m /\
      _call_count w1 = _call_count w) /\
   (exists w2,
      get_obj (run (invocations o calls) (fst (exec s (SetNCallStatHist o m)))) o
      = Some w2 /\ hist_len w2 <= m)) /\
  (PY_SSIZE_T_MAX < m ->
   snd (exec s (SetNCallStatHist o m)) = Raise overflow_error /\
   (exists w1, get_obj (fst (exec s (SetNCallStatHist o m))) o = Some w1 /\
      _call_hist w1 = _call_hist w /\ n_call_stat_hist w1 = m /\
      _call_count w1 = _call_count w)).
Proof.
  intros H Hm; rewrite (exec_set_hist s o w m H); cbn [fst snd].
  split; intros Hx.
  - assert (E := deque_new_ok m (conj Hm Hx)).
    set (w1 := mk_call_stats (__name__ w) (_func w) (_call_count w) m (mk_deque m [])).
    assert (Ew : fst (set_n_call_stat_hist m w) = w1)
      by (rewrite set_hist_fst, E; reflexivity).
    rewrite set_hist_snd, E, Ew.
    assert (H1 : get_obj (put_obj s o w1) o = Some w1) by (eapply get_put_eq; eauto).
    split; [reflexivity | split].
    + exists w1; repeat split; auto.
    + destruct (invocations_bounded (put_obj s o w1) o w1 calls H1)
        as (w2 & H2 & _ & H3 & _); [simpl; lia | unfold hist_len; simpl; lia |].
      exists w2; split; auto.
  - assert (E := deque_new_overflow m (or_intror Hx)).
    rewrite set_hist_snd, set_hist_fst, E.
    split; [reflexivity|].
    eexists; split; [eapply get_put_eq; eauto | split; [|split]; reflexivity].
Qed.

Lemma set_capacity_resets_witness :
  let s := run [Wrap add_f [] []; Invoke 0 [PyInt 1; PyInt 2] [] 0%R 1%R] state0 in
  let calls := [([PyInt 1; PyInt 1], [], 1%R, 2%R);
                ([PyInt 2; PyInt 2], [], 2%R, 3%R);
                ([PyInt 3; PyInt 3], [], 3%R, 4%R)] in
  let w := record_call (1 - 0)%R (init add_f) in
  get_obj s 0 = Some w /\ 0 <= 2 /\
  ((2 <= PY_SSIZE_T_MAX ->
    snd (exec s (SetNCallStatHist 0 2)) = Ok PyNone /\
    (exists w1, get_obj (fst (exec s (SetNCallStatHist 0 2))) 0 = Some w1 /\
       items (_call_hist w1) = [] /\ n_call_stat_hist w1 = 2 /\
       _call_count w1 = _call_count w) /\
    (exists w2,
       get_obj (run (invocations 0 calls) (fst (exec s (SetNCallStatHist 0 2)))) 0
       = Some w2 /\ hist_len w2 <= 2)) /\
   (PY_SSIZE_T_MAX < 2 ->
    snd (exec s (SetNCallStatHist 0 2)) = Raise overflow_error /\
    (exists w1, get_obj (fst (exec s (SetNCallStatHist 0 2))) 0 = Some w1 /\
       _call_hist w1 = _call_hist w /\ n_call_stat_hist w1 = 2 /\
       _call_count w1 = _call_count w))).
Proof.
  intros s calls w.
  assert (H : get_obj s 0 = Some w) by reflexivity.
  split; [exact H | split; [lia | exact (set_capacity_resets s 0 w 2 calls H ltac:(lia))]].
Defined.



(** C9: entries of [_instances] are never removed: once a function has been
    wrapped, its key stays bound to an existing decorator object of that
    function after any further operations, also when it is wrapped again. *)
Theorem registry_entries_persist (s : state) (ops : list op) (k : nat) :
  key_registered s k -> key_registered (run ops s) k.
Proof.
  revert s; induction ops as [|o ops IH]; intros s H; simpl; auto.
  apply IH, exec_key_registered, H.
Qed.

Lemma registry_entries_persist_witness :
  key_registered (run [Wrap add_f [] []] state0) 1 /\
  key_registered
    (run [Invoke 0 [PyInt 1; PyInt 2] [] 0%R 1%R; Wrap noop_f [] [];
          Wrap add_f [] []; SetNCallStatHist 0 5]
       (run [Wrap add_f [] []] state0)) 1.
Proof.
  assert (H : key_registered (run [Wrap add_f [] []] state0) 1)
    by (exists 0%nat, (init add_f); repeat split).
  split; [exact H | apply registry_entries_persist, H].
Defined.



(** ** Examples *)

(** [add] called twice, [noop] three times, [mul] twice: the report lists
    [noop], then [add] and [mul] in registration order. *)
Example print_all_sample :
  flat_map (fun l => match l with CallsLine nm c _ _ _ => [(nm, c)] | _ => [] end)
    (print_all_call_stats
       (run [Wrap add_f [] []; Wrap noop_f [] []; Wrap mul_f [] [];
             Invoke 2 [PyInt 2; PyInt 3] [] 0%R 1%R;
             Invoke 0 [PyInt 1; PyInt 1] [] 1%R 2%R;
             Invoke 1 [] [] 2%R 3%R; Invoke 1 [] [] 3%R 4%R; Invoke 1 [] [] 4%R 5%R;
             Invoke 0 [PyInt 2] [("b"%string, PyInt 2)] 5%R 6%R;
             Invoke 2 [PyInt 1; PyInt 1] [] 6%R 7%R]
          state0))
  = [("noop"%string, 3); ("add"%string, 2); ("mul"%string, 2)].
Proof. reflexivity. Qed.

(** The capacity setter assigns the field before the deque is built: with a
    negative value it raises ValueError and leaves the capacity field
    negative next to the old history (outside the spec's unsigned
    capacities). *)
Example set_negative_capacity :
  let s := run [Wrap add_f [] []; Invoke 0 [PyInt 1; PyInt 2] [] 0%R 1%R] state0 in
  snd (exec s (SetNCallStatHist 0 (-1)))
    = Raise (Exc "ValueError" "maxlen must be non-negative") /\
  option_map (fun w => (n_call_stat_hist w, hist_len w))
    (get_obj (fst (exec s (SetNCallStatHist 0 (-1)))) 0) = Some (-1, 1).
Proof. split; reflexivity. Qed.

(** ** Further properties of the code *)

(** X1: the history is a ring buffer: after any invocations of a wrapped
    callable, it holds the last [maxlen] durations among the old history
    followed by the durations of the calls that returned, and the count grew
    by the number of those calls. *)
Theorem history_keeps_last_durations (s : state) (o : nat) (w : call_stats)
  (calls : list (list pyval * kwargs * R * R)) :
  get_obj s o = Some w -> 0 <= maxlen (_call_hist w) ->
  hist_len w <= maxlen (_call_hist w) ->
  exists w', get_obj (run (invocations o calls) s) o = Some w' /\
    items (_call_hist w')
    = lastn (Z.to_nat (maxlen (_call_hist w)))
        (items (_call_hist w) ++ ok_durations (fbody (_func w)) calls) /\
    _call_count w'
    = _call_count w + Z.of_nat (List.length (ok_durations (fbody (_func w)) calls)).
Proof.
  intros H H0 H1.
  destruct (invocations_history s o w calls H H0 H1) as (w' & ? & _ & ? & ? & _).
  exists w'; auto.
Qed.

Lemma history_keeps_last_durations_witness :
  let s := run [Wrap add_f [] []; SetNCallStatHist 0 2] state0 in
  let w := mk_call_stats "add" add_f 0 2 (mk_deque 2 []) in
  let calls := [([PyInt 1; PyInt 1], [], 0%R, 1%R); ([PyInt 1], [], 1%R, 2%R);
                ([PyInt 2], [("b"%string, PyInt 2)], 2%R, 4%R);
                ([PyInt 3; PyInt 3], [], 4%R, 7%R)] in
  get_obj s 0 = Some w /\ 0 <= maxlen (_call_hist w) /\
  hist_len w <= maxlen (_call_hist w) /\
  exists w', get_obj (run (invocations 0 calls) s) 0 = Some w' /\
    items (_call_hist w')
    = lastn (Z.to_nat (maxlen (_call_hist w)))
        (items (_call_hist w) ++ ok_durations (fbody (_func w)) calls) /\
    _call_count w'
    = _call_count w + Z.of_nat (List.length (ok_durations (fbody (_func w)) calls)).
Proof.
  intros s w calls.
  assert (H : get_obj s 0 = Some w) by reflexivity.
  assert (H0 : 0 <= maxlen (_call_hist w)) by (simpl; lia).
  assert (H1 : hist_len w <= maxlen (_call_hist w)) by (unfold hist_len; simpl; lia).
  split; [exact H|]; split; [exact H0|]; split; [exact H1|].
  exact (history_keeps_last_durations s 0 w calls H H0 H1).
Defined.

(** X2: as long as the old history and the new durations fit within the
    deque's [maxlen], nothing is evicted: the history is the old history
    followed by every duration of a call that returned. *)
Theorem history_no_eviction (s : state) (o : nat) (w : call_stats)
  (calls : list (list pyval * kwargs * R * R)) :
  get_obj s o = Some w ->
  Z.of_nat (List.length (items (_call_hist w))
            + List.length (ok_durations (fbody (_func w)) calls))
  <= maxlen (_call_hist w) ->
  exists w', get_obj (run (invocations o calls) s) o = Some w' /\
    items (_call_hist w') = items (_call_hist w) ++ ok_durations (fbody (_func w)) calls.
Proof.
  intros H H1.
  destruct (invocations_history s o w calls H) as (w' & Hw & _ & Hi & _ & _);
    [lia | unfold hist_len; lia |].
  exists w'; split; auto; rewrite Hi; apply lastn_all; rewrite length_app; lia.
Qed.

Lemma history_no_eviction_witness :
  let s := run [Wrap add_f [] []] state0 in
  let calls := [([PyInt 1; PyInt 1], [], 0%R, 1%R); ([PyInt 1], [], 1%R, 2%R)] in
  get_obj s 0 = Some (init add_f) /\
  Z.of_nat (List.length (items (_call_hist (init add_f)))
            + List.length (ok_durations (fbody (_func (init add_f))) calls))
  <= maxlen (_call_hist (init add_f)) /\
  exists w', get_obj (run (invocations 0 calls) s) 0 = Some w' /\
    items (_call_hist w')
    = items (_call_hist (init add_f)) ++ ok_durations (fbody (_func (init add_f))) calls.
Proof.
  intros s calls.
  assert (H : get_obj s 0 = Some (init add_f)) by reflexivity.
  assert (H1 : Z.of_nat (List.length (items (_call_hist (init add_f)))
                         + List.length (ok_durations (fbody (_func (init add_f))) calls))
               <= maxlen (_call_hist (init add_f)))
    by (apply Z.leb_le; vm_compute; reflexivity).
  split; [exact H|]; split; [exact H1|].
  exact (history_no_eviction s 0 _ calls H H1).
Defined.



(** X7: in every reachable state the registry is well formed: its keys are
    distinct and each is bound to an existing decorator object of the
    function with that key. *)
Theorem reachable_registry_wf (ops : list op) : reg_wf (run ops state0).
Proof. apply run_reg_wf, reg_wf_state0. Qed.



(** X11: the decorated recursive [fib] of the demo counts every recursive
    invocation: running [fib(n)] adds the number of calls of the naive
    recursion to its count (15 for the demo's [fib(5)], 177 for
    [fib(10)]). *)
Theorem fib_counts_every_call (s : state) (o : nat) (w : call_stats) (n : nat)
  (t1 t2 : R) :
  get_obj s o = Some w -> _func w = fib_f ->
  exists w', get_obj (run (fib_calls o n t1 t2) s) o = Some w' /\
    _call_count w' = _call_count w + Z.of_nat (ncalls n).
Proof.
  intros H Hf.
  destruct (fib_calls_count o n t1 t2 s w H Hf) as (w' & H1 & _ & H2).
  exists w'; auto.
Qed.

Lemma fib_counts_every_call_witness :
  let s := run [Wrap fib_f [] []] state0 in
  get_obj s 0 = Some (init fib_f) /\ _func (init fib_f) = fib_f /\
  ncalls 5 = 15%nat /\ ncalls 10 = 177%nat /\
  exists w', get_obj (run (fib_calls 0 5 0%R 1%R) s) 0 = Some w' /\
    _call_count w' = _call_count (init fib_f) + Z.of_nat (ncalls 5).
Proof.
  intros s.
  assert (H : get_obj s 0 = Some (init fib_f)) by reflexivity.
  split; [exact H | split; [reflexivity | split; [reflexivity | split; [reflexivity|]]]].
  exact (fib_counts_every_call s 0 _ 5 0%R 1%R H eq_refl).
Defined.



